(** * BSTMap: a map backed by an unbalanced binary search tree

    Shallow embedding of [SYSC2100/bstmap.py] and the proofs of its
    specification.

    The Python class keeps its entries in [_Node] objects linked through
    [left] and [right], and the number of entries in [_num_entries].  The
    tree is strict (no node has two parents), so an object reference is
    modelled by the value of the subtree it points to.  Every method is
    written in state-passing style: it receives the state of the object it
    works on and returns the state it leaves, together with its outcome, a
    returned value or a raised exception.  The state is returned on both
    outcomes, so that what an exception leaves behind can be stated.

    The methods are given first as they run while the call stack lasts;
    [BoundedStack] then gives the insertion under Python's bound on the
    depth of nested calls, where it can fail with [RecursionError]. *)

From Stdlib Require Import List ZArith String Ascii Bool Lia Sorted DecimalString.
From Stdlib Require Import Permutation.
Import ListNotations.

Local Open Scope string_scope.
Local Open Scope list_scope.

(** ** Outcomes of a call *)

(** The exceptions the methods can end with: the [KeyError] that
    [__getitem__] raises itself, carrying its message, and whatever a key
    comparison raised, which the methods let through untouched. *)
Inductive exn : Type :=
| KeyError (msg : string)
| ComparisonError (msg : string).

Inductive result (A : Type) : Type :=
| Ok (a : A)
| Raise (e : exn).

Arguments Ok {A} a.
Arguments Raise {A} e.

(** ** What the container asks of keys and values *)

(** Keys are used through [==] and [<] (either may raise, as [<] does in
    Python between an [int] and a [str]), through the f-string that builds
    the [KeyError] message, and through [repr].  Values are only stored and
    rendered with [repr]; [PyNone] is Python's [None], the default of
    [get]'s second parameter. *)
Class PyKey (K : Type) : Type := {
  key_eq : K -> K -> string + bool;
  key_lt : K -> K -> string + bool;
  key_format : K -> string;
  key_repr : K -> string
}.

Class PyValue (V : Type) : Type := {
  PyNone : V;
  value_repr : V -> string
}.

Section Container.

Context {K V : Type} `{PyKey K} `{PyValue V}.

(** ** Data model *)

(** A reference held in [_root], [left] or [right]: [None], or a [_Node]
    object with its key, its value and its two children. *)
Inductive node_ref : Type :=
| NoneRef
| _Node (key : K) (value : V) (left_ right_ : node_ref).

Record BSTMap : Type := {
  _root : node_ref;
  _num_entries : nat
}.

(** ** Methods of the container, as state transformers on [self] *)

Definition M (A : Type) : Type := BSTMap -> BSTMap * result A.

Definition ret {A : Type} (a : A) : M A := fun self => (self, Ok a).

Definition bind {A B : Type} (m : M A) (f : A -> M B) : M B :=
  fun self =>
    match m self with
    | (self', Ok a) => f a self'
    | (self', Raise e) => (self', Raise e)
    end.

Notation "x <- m ;; f" := (bind m (fun x => f))
  (at level 61, m at next level, right associativity).

(** [_Node.__iter__]: the keys of the subtree in inorder.  The generator
    is modelled by the finite list of the keys it yields. *)
Fixpoint _Node__iter__ (self : node_ref) : node_ref * list K :=
  match self with
  | NoneRef => (NoneRef, [])
  | _Node key value left_ right_ =>
      let '(left', before) :=
        match left_ with
        | NoneRef => (left_, [])
        | _ => _Node__iter__ left_
        end in
      let '(right', after) :=
        match right_ with
        | NoneRef => (right_, [])
        | _ => _Node__iter__ right_
        end in
      (_Node key value left' right', before ++ [key] ++ after)
  end.

(** [BSTMap.__iter__] *)
Definition __iter__ : M (list K) :=
  fun self =>
    match _root self with
    | NoneRef => (self, Ok [])
    | root =>
        let '(root', keys) := _Node__iter__ root in
        ({| _root := root'; _num_entries := _num_entries self |}, Ok keys)
    end.

(** The helper [_set_item] of [__setitem__].  It works on the object
    [node] refers to and on [self._num_entries]; it returns the state it
    leaves that object in, the counter, and the reference it returns (the
    state of the object referred to) or the exception it raises. *)
Fixpoint _set_item (node : node_ref) (key : K) (newvalue : V)
    (num_entries : nat) : node_ref * nat * result node_ref :=
  match node with
  | NoneRef =>
      (NoneRef, S num_entries, Ok (_Node key newvalue NoneRef NoneRef))
  | _Node nkey nvalue left_ right_ =>
      match key_eq nkey key with
      | inl msg => (node, num_entries, Raise (ComparisonError msg))
      | inr true =>
          let node' := _Node nkey newvalue left_ right_ in
          (node', num_entries, Ok node')
      | inr false =>
          match key_lt key nkey with
          | inl msg => (node, num_entries, Raise (ComparisonError msg))
          | inr true =>
              match _set_item left_ key newvalue num_entries with
              | (_, n, Ok left') =>
                  let node' := _Node nkey nvalue left' right_ in
                  (node', n, Ok node')
              | (left', n, Raise e) =>
                  (_Node nkey nvalue left' right_, n, Raise e)
              end
          | inr false =>
              match _set_item right_ key newvalue num_entries with
              | (_, n, Ok right') =>
                  let node' := _Node nkey nvalue left_ right' in
                  (node', n, Ok node')
              | (right', n, Raise e) =>
                  (_Node nkey nvalue left_ right', n, Raise e)
              end
          end
      end
  end.

(** [BSTMap.__setitem__] *)
Definition __setitem__ (key : K) (newvalue : V) : M unit :=
  fun self =>
    match _set_item (_root self) key newvalue (_num_entries self) with
    | (_, n, Ok root') => ({| _root := root'; _num_entries := n |}, Ok tt)
    | (root', n, Raise e) => ({| _root := root'; _num_entries := n |}, Raise e)
    end.

(** The helper [_get_item] of [__getitem__] *)
Fixpoint _get_item (node : node_ref) (key : K) : node_ref * result V :=
  match node with
  | NoneRef => (NoneRef, Raise (KeyError (key_format key)))
  | _Node nkey nvalue left_ right_ =>
      match key_eq nkey key with
      | inl msg => (node, Raise (ComparisonError msg))
      | inr true => (node, Ok nvalue)
      | inr false =>
          match key_lt key nkey with
          | inl msg => (node, Raise (ComparisonError msg))
          | inr true =>
              let '(left', res) := _get_item left_ key in
              (_Node nkey nvalue left' right_, res)
          | inr false =>
              let '(right', res) := _get_item right_ key in
              (_Node nkey nvalue left_ right', res)
          end
      end
  end.

(** [BSTMap.__getitem__] *)
Definition __getitem__ (key : K) : M V :=
  fun self =>
    let '(root', res) := _get_item (_root self) key in
    ({| _root := root'; _num_entries := _num_entries self |}, res).

(** The helper [_get] of [get]; [default_value] is the variable of the
    enclosing call. *)
Fixpoint _get (default_value : V) (node : node_ref) (key : K)
    : node_ref * result V :=
  match node with
  | NoneRef => (NoneRef, Ok default_value)
  | _Node nkey nvalue left_ right_ =>
      match key_eq nkey key with
      | inl msg => (node, Raise (ComparisonError msg))
      | inr true => (node, Ok nvalue)
      | inr false =>
          match key_lt key nkey with
          | inl msg => (node, Raise (ComparisonError msg))
          | inr true =>
              let '(left', res) := _get default_value left_ key in
              (_Node nkey nvalue left' right_, res)
          | inr false =>
              let '(right', res) := _get default_value right_ key in
              (_Node nkey nvalue left_ right', res)
          end
      end
  end.

(** [BSTMap.get].  The second parameter is optional: [None] stands for a
    call that leaves it out, and the parameter then takes its declared
    default, Python's [None]. *)
Definition get (key : K) (default_value : option V) : M V :=
  fun self =>
    let default_value :=
      match default_value with
      | Some d => d
      | None => PyNone
      end in
    let '(root', res) := _get default_value (_root self) key in
    ({| _root := root'; _num_entries := _num_entries self |}, res).

(** [BSTMap.__len__] *)
Definition __len__ : M nat :=
  fun self => (self, Ok (_num_entries self)).

(** The helper [_contains] of [__contains__] *)
Fixpoint _contains (node : node_ref) (key : K) : node_ref * result bool :=
  match node with
  | NoneRef => (NoneRef, Ok false)
  | _Node nkey nvalue left_ right_ =>
      match key_eq nkey key with
      | inl msg => (node, Raise (ComparisonError msg))
      | inr true => (node, Ok true)
      | inr false =>
          match key_lt key nkey with
          | inl msg => (node, Raise (ComparisonError msg))
          | inr true =>
              let '(left', res) := _contains left_ key in
              (_Node nkey nvalue left' right_, res)
          | inr false =>
              let '(right', res) := _contains right_ key in
              (_Node nkey nvalue left_ right', res)
          end
      end
  end.

(** [BSTMap.__contains__] *)
Definition __contains__ (key : K) : M bool :=
  fun self =>
    let '(root', res) := _contains (_root self) key in
    ({| _root := root'; _num_entries := _num_entries self |}, res).

(** The list comprehension of [__str__]: one ["key: value"] string per key,
    with the value fetched by [self[key]]. *)
Fixpoint str_items (keys : list K) : M (list string) :=
  match keys with
  | [] => ret []
  | key :: rest =>
      value <- __getitem__ key ;;
      items <- str_items rest ;;
      ret ((key_repr key ++ ": " ++ value_repr value)%string :: items)
  end.

(** [BSTMap.__str__] *)
Definition __str__ : M string :=
  keys <- __iter__ ;;
  items <- str_items keys ;;
  ret ("{" ++ String.concat ", " items ++ "}")%string.

(** [__repr__ = __str__] *)
Definition __repr__ : M string := __str__.

(** The loop of [__init__]: [for key, value in iterable: self[key] = value] *)
Fixpoint init_loop (iterable : list (K * V)) : M unit :=
  match iterable with
  | [] => ret tt
  | (key, value) :: rest =>
      _ <- __setitem__ key value ;;
      init_loop rest
  end.

(** [BSTMap.__init__]: the state of the new object and how the constructor
    ended. *)
Definition __init__ (iterable : list (K * V)) : BSTMap * result unit :=
  init_loop iterable {| _root := NoneRef; _num_entries := 0 |}.

End Container.

Arguments node_ref : clear implicits.
Arguments BSTMap : clear implicits.

(** ** Specification vocabulary *)

Section Specification.

Context {K V : Type} `{PyKey K} `{PyValue V}.

(** The comparisons as booleans; they say what [==] and [<] answer when
    the comparison returns. *)
Definition eqb (a b : K) : bool :=
  match key_eq a b with
  | inr true => true
  | _ => false
  end.

Definition ltb (a b : K) : bool :=
  match key_lt a b with
  | inr true => true
  | _ => false
  end.

Definition key_less (a b : K) : Prop := ltb a b = true.

(** Correct key usage: comparisons between keys always return, [==] is
    equality of keys and [<] is a strict total order on them. *)
Class TotalOrderKeys : Prop := {
  key_eq_total : forall a b, key_eq a b = inr (eqb a b);
  key_lt_total : forall a b, key_lt a b = inr (ltb a b);
  eqb_eq : forall a b, eqb a b = true <-> a = b;
  ltb_irrefl : forall a, ltb a a = false;
  ltb_trans : forall a b c, ltb a b = true -> ltb b c = true -> ltb a c = true;
  ltb_connex : forall a b, eqb a b = false -> ltb a b = false -> ltb b a = true
}.

(** The keys of a subtree, left to right. *)
Fixpoint inorder (t : node_ref K V) : list K :=
  match t with
  | NoneRef => []
  | _Node key _ left_ right_ => inorder left_ ++ key :: inorder right_
  end.

(** The binary search tree invariant. *)
Fixpoint bst (t : node_ref K V) : Prop :=
  match t with
  | NoneRef => True
  | _Node key _ left_ right_ =>
      Forall (fun k => key_less k key) (inorder left_) /\
      Forall (fun k => key_less key k) (inorder right_) /\
      bst left_ /\ bst right_
  end.

(** What the descent of [_get_item], [_get] and [_contains] finds, and the
    tree [_set_item] builds, when every comparison returns. *)
Fixpoint tree_lookup (t : node_ref K V) (key : K) : option V :=
  match t with
  | NoneRef => None
  | _Node nkey nvalue left_ right_ =>
      if eqb nkey key then Some nvalue
      else if ltb key nkey then tree_lookup left_ key
      else tree_lookup right_ key
  end.

Fixpoint tree_insert (t : node_ref K V) (key : K) (newvalue : V)
    : node_ref K V :=
  match t with
  | NoneRef => _Node key newvalue NoneRef NoneRef
  | _Node nkey nvalue left_ right_ =>
      if eqb nkey key then _Node nkey newvalue left_ right_
      else if ltb key nkey
           then _Node nkey nvalue (tree_insert left_ key newvalue) right_
           else _Node nkey nvalue left_ (tree_insert right_ key newvalue)
  end.

(** The two ways a completed [__setitem__] changes the tree: a new leaf
    with the key and the value takes the place of one [None], or the value
    of one node is replaced. *)
Inductive leaf_linked (key : K) (newvalue : V)
    : node_ref K V -> node_ref K V -> Prop :=
| leaf_linked_here :
    leaf_linked key newvalue NoneRef (_Node key newvalue NoneRef NoneRef)
| leaf_linked_left k v l l' r :
    leaf_linked key newvalue l l' ->
    leaf_linked key newvalue (_Node k v l r) (_Node k v l' r)
| leaf_linked_right k v l r r' :
    leaf_linked key newvalue r r' ->
    leaf_linked key newvalue (_Node k v l r) (_Node k v l r').

Inductive value_overwritten (newvalue : V)
    : node_ref K V -> node_ref K V -> Prop :=
| value_overwritten_here k v l r :
    value_overwritten newvalue (_Node k v l r) (_Node k newvalue l r)
| value_overwritten_left k v l l' r :
    value_overwritten newvalue l l' ->
    value_overwritten newvalue (_Node k v l r) (_Node k v l' r)
| value_overwritten_right k v l r r' :
    value_overwritten newvalue r r' ->
    value_overwritten newvalue (_Node k v l r) (_Node k v l r').

(** The empty map, [BSTMap()]. *)
Definition new_map : BSTMap K V := fst (__init__ []).

(** The state after calling [self[key] = value] for each pair of [calls],
    in order, on [self]. *)
Definition run_calls (calls : list (K * V)) (self : BSTMap K V)
    : BSTMap K V :=
  fold_left (fun self call => fst (__setitem__ (fst call) (snd call) self))
    calls self.

Definition after_calls (calls : list (K * V)) : BSTMap K V :=
  run_calls calls new_map.

(** The states a map can be in: those reached from the empty map by
    [__setitem__] calls. *)
Inductive reachable : BSTMap K V -> Prop :=
| reachable_new : reachable new_map
| reachable_setitem self key value :
    reachable self -> reachable (fst (__setitem__ key value self)).

(** A call is atomic when an exception leaves [self] as it was before the
    call, and a return leaves it in a state that [completed] describes. *)
Definition atomic {A : Type} (before : BSTMap K V)
    (completed : BSTMap K V -> A -> Prop)
    (outcome : BSTMap K V * result A) : Prop :=
  match outcome with
  | (after, Raise _) => after = before
  | (after, Ok a) => completed after a
  end.

(** The items [__str__] joins, from the keys and their values. *)
Definition rendered_items (keys : list K) (values : list V) : list string :=
  map (fun kv => (key_repr (fst kv) ++ ": " ++ value_repr (snd kv))%string)
    (combine keys values).

(** The number of nodes on the longest path from a node down to a [None]:
    the deepest the recursive helpers descend. *)
Fixpoint height (t : node_ref K V) : nat :=
  match t with
  | NoneRef => 0
  | _Node _ _ left_ right_ => S (Nat.max (height left_) (height right_))
  end.

(** The tree with no left child anywhere: each pair in a node whose right
    child holds the next pair. *)
Fixpoint right_chain (pairs : list (K * V)) : node_ref K V :=
  match pairs with
  | [] => NoneRef
  | (key, value) :: rest => _Node key value NoneRef (right_chain rest)
  end.

End Specification.

Arguments TotalOrderKeys K {_}.

(** ** The insertion on a bounded call stack *)

(** The definitions above let a call return whatever the depth of the
    calls around it.  Python bounds that depth: a call made when no frame
    is left raises [RecursionError] before its body runs.  This module
    gives [__setitem__], its helper and the constructor with that bound;
    [frames] is the number of calls that can still be nested where the
    call is made.  [_set_item] calls itself once per node of the path and
    once on the [None] at its end, and there, after
    [self._num_entries += 1], it calls [BSTMap._Node(key, newvalue)], which
    needs a frame of its own.  Key comparisons take no frame, as those of
    [int] and [str] keys. *)
Module BoundedStack.

Inductive outcome (A : Type) : Type :=
| Returned (a : A)
| Raised (e : exn)
| RecursionError.

Arguments Returned {A} a.
Arguments Raised {A} e.
Arguments RecursionError {A}.

Section Methods.

Context {K V : Type} `{PyKey K} `{PyValue V}.

Fixpoint _set_item (frames : nat) (node : node_ref K V) (key : K)
    (newvalue : V) (num_entries : nat) {struct node}
    : node_ref K V * nat * outcome (node_ref K V) :=
  match frames with
  | 0 => (node, num_entries, RecursionError)
  | S frames' =>
      match node with
      | NoneRef =>
          let num_entries := S num_entries in
          match frames' with
          | 0 => (NoneRef, num_entries, RecursionError)
          | S _ =>
              (NoneRef, num_entries, Returned (_Node key newvalue NoneRef NoneRef))
          end
      | _Node nkey nvalue left_ right_ =>
          match key_eq nkey key with
          | inl msg => (node, num_entries, Raised (ComparisonError msg))
          | inr true =>
              let node' := _Node nkey newvalue left_ right_ in
              (node', num_entries, Returned node')
          | inr false =>
              match key_lt key nkey with
              | inl msg => (node, num_entries, Raised (ComparisonError msg))
              | inr true =>
                  match _set_item frames' left_ key newvalue num_entries with
                  | (_, n, Returned left') =>
                      let node' := _Node nkey nvalue left' right_ in
                      (node', n, Returned node')
                  | (left', n, Raised e) =>
                      (_Node nkey nvalue left' right_, n, Raised e)
                  | (left', n, RecursionError) =>
                      (_Node nkey nvalue left' right_, n, RecursionError)
                  end
              | inr false =>
                  match _set_item frames' right_ key newvalue num_entries with
                  | (_, n, Returned right') =>
                      let node' := _Node nkey nvalue left_ right' in
                      (node', n, Returned node')
                  | (right', n, Raised e) =>
                      (_Node nkey nvalue left_ right', n, Raised e)
                  | (right', n, RecursionError) =>
                      (_Node nkey nvalue left_ right', n, RecursionError)
                  end
              end
          end
      end
  end.

Definition __setitem__ (frames : nat) (key : K) (newvalue : V)
    (self : BSTMap K V) : BSTMap K V * outcome unit :=
  match frames with
  | 0 => (self, RecursionError)
  | S frames' =>
      match _set_item frames' (_root self) key newvalue (_num_entries self) with
      | (_, n, Returned root') =>
          ({| _root := root'; _num_entries := n |}, Returned tt)
      | (root', n, Raised e) =>
          ({| _root := root'; _num_entries := n |}, Raised e)
      | (root', n, RecursionError) =>
          ({| _root := root'; _num_entries := n |}, RecursionError)
      end
  end.

(** The loop of [__init__] and [__init__] itself; [frames] is what is left
    for the calls the body of [__init__] makes. *)
Fixpoint init_loop (frames : nat) (iterable : list (K * V))
    (self : BSTMap K V) : BSTMap K V * outcome unit :=
  match iterable with
  | [] => (self, Returned tt)
  | (key, value) :: rest =>
      match __setitem__ frames key value self with
      | (self', Returned _) => init_loop frames rest self'
      | (self', Raised e) => (self', Raised e)
      | (self', RecursionError) => (self', RecursionError)
      end
  end.

Definition __init__ (frames : nat) (iterable : list (K * V))
    : BSTMap K V * outcome unit :=
  init_loop frames iterable {| _root := NoneRef; _num_entries := 0 |}.

End Methods.

End BoundedStack.

(** ** Python objects used as keys and values *)

Definition squote : ascii := ascii_of_nat 39.
Definition dquote : ascii := ascii_of_nat 34.
Definition backslash : ascii := ascii_of_nat 92.

(** [repr] of an [int]: its decimal digits, with a sign when negative. *)
Definition repr_int (z : Z) : string := NilZero.string_of_int (Z.to_int z).

Definition hex_digit (n : nat) : ascii :=
  match String.get n "0123456789abcdef" with
  | Some c => c
  | None => "0"%char
  end.

(** [repr] of a [str] whose characters are code points below 256: the
    string between single quotes, or between double quotes when it holds a
    single quote and no double quote; the enclosing quote and the backslash
    are escaped, tab, line feed and carriage return are written with their
    letters, and the other characters that are not printable as [\xhh]. *)
Definition repr_char (quote c : ascii) : string :=
  let n := nat_of_ascii c in
  if Ascii.eqb c quote || Ascii.eqb c backslash then String backslash (String c "")
  else if (n =? 9)%nat then String backslash "t"
  else if (n =? 10)%nat then String backslash "n"
  else if (n =? 13)%nat then String backslash "r"
  else if ((n <? 32) || (n =? 127) || ((128 <=? n) && (n <=? 160))
           || (n =? 173))%nat
       then String backslash
              (String "x" (String (hex_digit (n / 16)) (String (hex_digit (n mod 16)) "")))
  else String c "".

Fixpoint has_char (c : ascii) (s : string) : bool :=
  match s with
  | EmptyString => false
  | String c' s' => Ascii.eqb c c' || has_char c s'
  end.

Definition repr_str (s : string) : string :=
  let quote :=
    if has_char squote s && negb (has_char dquote s) then dquote else squote in
  String quote
    (String.concat "" (map (repr_char quote) (list_ascii_of_string s))
     ++ String quote "").

(** The objects of the examples: [None], integers and strings. *)
Inductive pyobj : Type :=
| NoneObj
| IntObj (z : Z)
| StrObj (s : string).

Definition repr_obj (o : pyobj) : string :=
  match o with
  | NoneObj => "None"
  | IntObj z => repr_int z
  | StrObj s => repr_str s
  end.

(** [str] of an object, as the f-string of the [KeyError] message uses it. *)
Definition str_obj (o : pyobj) : string :=
  match o with
  | StrObj s => s
  | _ => repr_obj o
  end.

Definition type_name (o : pyobj) : string :=
  match o with
  | NoneObj => "NoneType"
  | IntObj _ => "int"
  | StrObj _ => "str"
  end.

#[export] Instance PyValue_pyobj : PyValue pyobj := {|
  PyNone := NoneObj;
  value_repr := repr_obj
|}.

(** Integer keys: both comparisons always return. *)
#[export] Instance PyKey_int : PyKey Z := {|
  key_eq a b := inr (Z.eqb a b);
  key_lt a b := inr (Z.ltb a b);
  key_format := repr_int;
  key_repr := repr_int
|}.

(** Keys of any of the three kinds: [==] between objects of different
    types is [False], and [<] raises a [TypeError] unless both are integers
    or both are strings. *)
Definition obj_eq (a b : pyobj) : string + bool :=
  match a, b with
  | NoneObj, NoneObj => inr true
  | IntObj x, IntObj y => inr (Z.eqb x y)
  | StrObj x, StrObj y => inr (String.eqb x y)
  | _, _ => inr false
  end.

Definition obj_lt (a b : pyobj) : string + bool :=
  match a, b with
  | IntObj x, IntObj y => inr (Z.ltb x y)
  | StrObj x, StrObj y => inr (String.ltb x y)
  | _, _ =>
      inl ("'<' not supported between instances of '" ++ type_name a
           ++ "' and '" ++ type_name b ++ "'")%string
  end.

#[export] Instance PyKey_pyobj : PyKey pyobj := {|
  key_eq := obj_eq;
  key_lt := obj_lt;
  key_format := str_obj;
  key_repr := repr_obj
|}.

(** The calls of the specification's scenario: 5 is set to 'A', 3 to 'B',
    8 to 'C', and 3 again to 'D'. *)
Definition scenario_calls : list (Z * pyobj) :=
  [(5%Z, StrObj "A"); (3%Z, StrObj "B"); (8%Z, StrObj "C"); (3%Z, StrObj "D")].

(** The pairs of the docstrings' example. *)
Definition grades : list (Z * pyobj) :=
  [(111537%Z, StrObj "A+"); (101156%Z, StrObj "A+"); (127118%Z, StrObj "B")].

(** The same pairs with the keys in ascending order. *)
Definition ascending_grades : list (Z * pyobj) :=
  [(101156%Z, StrObj "A+"); (111537%Z, StrObj "A+"); (127118%Z, StrObj "B")].


(** The pairs that set the keys 1 to [n], in ascending order. *)
Definition chain_calls (n : nat) : list (Z * pyobj) :=
  map (fun i => (Z.of_nat i, StrObj "x")) (seq 1 n).

(** * Proofs *)

(** ** What holds for any keys, also when comparisons raise *)

Section Frame.

Context {K V : Type} `{PyKey K} `{PyValue V}.

Lemma self_eta (self : BSTMap K V) :
  {| _root := _root self; _num_entries := _num_entries self |} = self.
Proof. destruct self; reflexivity. Qed.

Lemma _Node__iter___inorder (t : node_ref K V) :
  _Node__iter__ t = (t, inorder t).
Proof.
  induction t as [|key value l IHl r IHr]; simpl; [reflexivity|].
  assert (Hl : match l with
               | NoneRef => (l, [])
               | _ => _Node__iter__ l
               end = (l, inorder l))
    by (destruct l; [reflexivity | exact IHl]).
  assert (Hr : match r with
               | NoneRef => (r, [])
               | _ => _Node__iter__ r
               end = (r, inorder r))
    by (destruct r; [reflexivity | exact IHr]).
  rewrite Hl, Hr. reflexivity.
Qed.

Lemma __iter___inorder (self : BSTMap K V) :
  __iter__ self = (self, Ok (inorder (_root self))).
Proof.
  unfold __iter__. destruct self as [[|key value l r] n].
  - reflexivity.
  - cbv beta iota delta [_root _num_entries].
    rewrite (_Node__iter___inorder (_Node key value l r)). reflexivity.
Qed.

(** The three descents leave the subtree they search as it was. *)
Lemma _get_item_frame (t : node_ref K V) key : fst (_get_item t key) = t.
Proof.
  induction t as [|nkey nvalue l IHl r IHr]; simpl; [reflexivity|].
  destruct (key_eq nkey key) as [msg|[|]]; try reflexivity.
  destruct (key_lt key nkey) as [msg|[|]]; try reflexivity.
  - destruct (_get_item l key); simpl in *; congruence.
  - destruct (_get_item r key); simpl in *; congruence.
Qed.

Lemma _get_frame d (t : node_ref K V) key : fst (_get d t key) = t.
Proof.
  induction t as [|nkey nvalue l IHl r IHr]; simpl; [reflexivity|].
  destruct (key_eq nkey key) as [msg|[|]]; try reflexivity.
  destruct (key_lt key nkey) as [msg|[|]]; try reflexivity.
  - destruct (_get d l key); simpl in *; congruence.
  - destruct (_get d r key); simpl in *; congruence.
Qed.

Lemma _contains_frame (t : node_ref K V) key : fst (_contains t key) = t.
Proof.
  induction t as [|nkey nvalue l IHl r IHr]; simpl; [reflexivity|].
  destruct (key_eq nkey key) as [msg|[|]]; try reflexivity.
  destruct (key_lt key nkey) as [msg|[|]]; try reflexivity.
  - destruct (_contains l key); simpl in *; congruence.
  - destruct (_contains r key); simpl in *; congruence.
Qed.

Lemma __getitem___frame key (self : BSTMap K V) :
  fst (__getitem__ key self) = self.
Proof.
  unfold __getitem__. pose proof (_get_item_frame (_root self) key) as F.
  destruct (_get_item (_root self) key) as [root' res]; simpl in *.
  subst root'. apply self_eta.
Qed.

Lemma get_frame key d (self : BSTMap K V) : fst (get key d self) = self.
Proof.
  unfold get.
  set (dv := match d with Some d0 => d0 | None => PyNone end).
  pose proof (_get_frame dv (_root self) key) as F.
  destruct (_get dv (_root self) key) as [root' res]; simpl in *.
  subst root'. apply self_eta.
Qed.

Lemma __contains___frame key (self : BSTMap K V) :
  fst (__contains__ key self) = self.
Proof.
  unfold __contains__. pose proof (_contains_frame (_root self) key) as F.
  destruct (_contains (_root self) key) as [root' res]; simpl in *.
  subst root'. apply self_eta.
Qed.

(** An exception out of [_set_item] comes from a comparison, and it leaves
    the subtree and the counter as they were. *)
Lemma _set_item_raise (t : node_ref K V) key newvalue n post n' e :
  _set_item t key newvalue n = (post, n', Raise e) ->
  post = t /\ n' = n /\ exists msg, e = ComparisonError msg.
Proof.
  revert post n' e.
  induction t as [|nkey nvalue l IHl r IHr]; simpl; intros post n' e Hs.
  - discriminate.
  - destruct (key_eq nkey key) as [msg|[|]].
    + inversion Hs; subst. eauto.
    + discriminate.
    + destruct (key_lt key nkey) as [msg|[|]].
      * inversion Hs; subst. eauto.
      * destruct (_set_item l key newvalue n) as [[l' m] [l''|e']] eqn:Hl;
          inversion Hs; subst.
        destruct (IHl _ _ _ eq_refl) as (-> & -> & Hmsg). auto.
      * destruct (_set_item r key newvalue n) as [[r' m] [r''|e']] eqn:Hr;
          inversion Hs; subst.
        destruct (IHr _ _ _ eq_refl) as (-> & -> & Hmsg). auto.
Qed.

(** A [_set_item] that returns has linked one new leaf and counted it, or
    has overwritten one value; the object it was called on is then the
    object it returns, unless it was called on [None]. *)
Lemma _set_item_ok (t : node_ref K V) key newvalue n post n' t' :
  _set_item t key newvalue n = (post, n', Ok t') ->
  (leaf_linked key newvalue t t' /\ n' = S n \/
   value_overwritten newvalue t t' /\ n' = n) /\
  (t <> NoneRef -> post = t').
Proof.
  revert post n' t'.
  induction t as [|nkey nvalue l IHl r IHr]; simpl; intros post n' t' Hs.
  - inversion Hs; subst. split; [left; split; [constructor | reflexivity]|].
    intros C; contradiction.
  - destruct (key_eq nkey key) as [msg|[|]]; [discriminate| |].
    + inversion Hs; subst. split; [right; split; [constructor | reflexivity]|].
      reflexivity.
    + destruct (key_lt key nkey) as [msg|[|]]; [discriminate| |].
      * destruct (_set_item l key newvalue n) as [[l' m] [l''|e']] eqn:Hl;
          inversion Hs; subst.
        destruct (IHl _ _ _ eq_refl) as ([[Hl1 ->]|[Hl1 ->]] & _);
          (split; [|reflexivity]);
          [left | right]; (split; [constructor; assumption | reflexivity]).
      * destruct (_set_item r key newvalue n) as [[r' m] [r''|e']] eqn:Hr;
          inversion Hs; subst.
        destruct (IHr _ _ _ eq_refl) as ([[Hr1 ->]|[Hr1 ->]] & _);
          (split; [|reflexivity]);
          [left | right]; (split; [constructor; assumption | reflexivity]).
Qed.

Lemma __setitem___raise key newvalue (self self' : BSTMap K V) e :
  __setitem__ key newvalue self = (self', Raise e) ->
  self' = self /\ exists msg, e = ComparisonError msg.
Proof.
  unfold __setitem__.
  destruct (_set_item (_root self) key newvalue (_num_entries self))
    as [[post n] [t'|e']] eqn:Hs; intros Hr; inversion Hr; subst.
  apply _set_item_raise in Hs. destruct Hs as (-> & -> & Hmsg).
  split; [apply self_eta | assumption].
Qed.

Lemma run_calls_app (l1 l2 : list (K * V)) self :
  run_calls (l1 ++ l2) self = run_calls l2 (run_calls l1 self).
Proof. unfold run_calls. apply fold_left_app. Qed.

Lemma reachable_run_calls calls (self : BSTMap K V) :
  reachable self -> reachable (run_calls calls self).
Proof.
  revert self. induction calls as [|[k v] calls IH]; simpl; intros self R.
  - exact R.
  - apply IH. apply reachable_setitem. exact R.
Qed.

Lemma reachable_after_calls (calls : list (K * V)) :
  reachable (after_calls calls).
Proof. apply reachable_run_calls. apply reachable_new. Qed.

Lemma reachable_inv (self : BSTMap K V) :
  reachable self -> exists calls, self = after_calls calls.
Proof.
  induction 1 as [|self key value R [calls ->]].
  - exists []. reflexivity.
  - exists (calls ++ [(key, value)]).
    unfold after_calls. rewrite run_calls_app. reflexivity.
Qed.

End Frame.

(** ** What holds when keys are totally ordered *)

Section Ordered.

Context {K V : Type} `{PyKey K} `{PyValue V} {HO : TotalOrderKeys K}.

Lemma eqb_refl (a : K) : eqb a a = true.
Proof. apply eqb_eq. reflexivity. Qed.

Lemma eqb_neq (a b : K) : eqb a b = false <-> a <> b.
Proof.
  split.
  - intros E Hab. apply eqb_eq in Hab. congruence.
  - intros Hab. destruct (eqb a b) eqn:E; [|reflexivity].
    apply eqb_eq in E. contradiction.
Qed.

Lemma eqb_sym (a b : K) : eqb a b = eqb b a.
Proof.
  destruct (eqb a b) eqn:E.
  - apply eqb_eq in E. subst. symmetry. apply eqb_refl.
  - symmetry. apply eqb_neq. apply eqb_neq in E. congruence.
Qed.

Lemma ltb_neq (a b : K) : ltb a b = true -> a <> b.
Proof. intros L E. subst. rewrite ltb_irrefl in L. discriminate. Qed.

Lemma ltb_asym (a b : K) : ltb a b = true -> ltb b a = false.
Proof.
  intros L. destruct (ltb b a) eqn:L'; [|reflexivity].
  pose proof (ltb_trans _ _ _ L L') as C. rewrite ltb_irrefl in C.
  discriminate.
Qed.

(** *** The methods, once comparisons are total *)

Lemma _set_item_total (t : node_ref K V) key newvalue n :
  _set_item t key newvalue n =
  (match t with NoneRef => NoneRef | _ => tree_insert t key newvalue end,
   match tree_lookup t key with Some _ => n | None => S n end,
   Ok (tree_insert t key newvalue)).
Proof.
  induction t as [|nkey nvalue l IHl r IHr]; simpl; [reflexivity|].
  rewrite key_eq_total. destruct (eqb nkey key); [reflexivity|].
  rewrite key_lt_total. destruct (ltb key nkey).
  - rewrite IHl. reflexivity.
  - rewrite IHr. reflexivity.
Qed.

Lemma _get_item_total (t : node_ref K V) key :
  _get_item t key =
  (t, match tree_lookup t key with
      | Some v => Ok v
      | None => Raise (KeyError (key_format key))
      end).
Proof.
  induction t as [|nkey nvalue l IHl r IHr]; simpl; [reflexivity|].
  rewrite key_eq_total. destruct (eqb nkey key); [reflexivity|].
  rewrite key_lt_total. destruct (ltb key nkey).
  - rewrite IHl. reflexivity.
  - rewrite IHr. reflexivity.
Qed.

Lemma _get_total d (t : node_ref K V) key :
  _get d t key =
  (t, Ok match tree_lookup t key with Some v => v | None => d end).
Proof.
  induction t as [|nkey nvalue l IHl r IHr]; simpl; [reflexivity|].
  rewrite key_eq_total. destruct (eqb nkey key); [reflexivity|].
  rewrite key_lt_total. destruct (ltb key nkey).
  - rewrite IHl. reflexivity.
  - rewrite IHr. reflexivity.
Qed.

Lemma _contains_total (t : node_ref K V) key :
  _contains t key =
  (t, Ok match tree_lookup t key with Some _ => true | None => false end).
Proof.
  induction t as [|nkey nvalue l IHl r IHr]; simpl; [reflexivity|].
  rewrite key_eq_total. destruct (eqb nkey key); [reflexivity|].
  rewrite key_lt_total. destruct (ltb key nkey).
  - rewrite IHl. reflexivity.
  - rewrite IHr. reflexivity.
Qed.

Lemma __setitem___total key newvalue (self : BSTMap K V) :
  __setitem__ key newvalue self =
  ({| _root := tree_insert (_root self) key newvalue;
      _num_entries := match tree_lookup (_root self) key with
                      | Some _ => _num_entries self
                      | None => S (_num_entries self)
                      end |}, Ok tt).
Proof. unfold __setitem__. rewrite _set_item_total. reflexivity. Qed.

Lemma __getitem___total key (self : BSTMap K V) :
  __getitem__ key self =
  (self, match tree_lookup (_root self) key with
         | Some v => Ok v
         | None => Raise (KeyError (key_format key))
         end).
Proof.
  unfold __getitem__. rewrite _get_item_total, self_eta. reflexivity.
Qed.

Lemma get_total key d (self : BSTMap K V) :
  get key d self =
  (self, Ok match tree_lookup (_root self) key with
            | Some v => v
            | None => match d with Some d0 => d0 | None => PyNone end
            end).
Proof. unfold get. rewrite _get_total, self_eta. reflexivity. Qed.

Lemma __contains___total key (self : BSTMap K V) :
  __contains__ key self =
  (self, Ok match tree_lookup (_root self) key with
            | Some _ => true
            | None => false
            end).
Proof.
  unfold __contains__. rewrite _contains_total, self_eta. reflexivity.
Qed.

(** *** Insertion and lookup on trees *)

Lemma lookup_insert (t : node_ref K V) key newvalue key' :
  tree_lookup (tree_insert t key newvalue) key' =
  if eqb key key' then Some newvalue else tree_lookup t key'.
Proof.
  induction t as [|nkey nvalue l IHl r IHr]; simpl.
  - destruct (eqb key key'); [reflexivity|]. destruct (ltb key' key); reflexivity.
  - destruct (eqb nkey key) eqn:E1; simpl.
    + apply eqb_eq in E1. subst nkey.
      destruct (eqb key key'); reflexivity.
    + destruct (ltb key nkey) eqn:E2; simpl;
        destruct (eqb nkey key') eqn:E3.
      * apply eqb_eq in E3. subst key'. rewrite eqb_sym, E1. reflexivity.
      * destruct (ltb key' nkey) eqn:E4; [apply IHl|].
        destruct (eqb key key') eqn:E5; [|reflexivity].
        apply eqb_eq in E5. congruence.
      * apply eqb_eq in E3. subst key'. rewrite eqb_sym, E1. reflexivity.
      * destruct (ltb key' nkey) eqn:E4; [|apply IHr].
        destruct (eqb key key') eqn:E5; [|reflexivity].
        apply eqb_eq in E5. congruence.
Qed.

Lemma inorder_insert_In (t : node_ref K V) key newvalue x :
  In x (inorder (tree_insert t key newvalue)) <-> x = key \/ In x (inorder t).
Proof.
  induction t as [|nkey nvalue l IHl r IHr]; simpl.
  - intuition.
  - destruct (eqb nkey key) eqn:E1; simpl.
    + apply eqb_eq in E1. subst nkey. rewrite in_app_iff. simpl. intuition.
    + destruct (ltb key nkey); simpl; rewrite !in_app_iff; simpl;
        [rewrite IHl | rewrite IHr]; intuition.
Qed.

Lemma inorder_insert_length (t : node_ref K V) key newvalue :
  List.length (inorder (tree_insert t key newvalue)) =
  match tree_lookup t key with
  | Some _ => List.length (inorder t)
  | None => S (List.length (inorder t))
  end.
Proof.
  induction t as [|nkey nvalue l IHl r IHr]; simpl; [reflexivity|].
  destruct (eqb nkey key); simpl; [reflexivity|].
  destruct (ltb key nkey); simpl; rewrite !List.length_app; simpl;
    [rewrite IHl; destruct (tree_lookup l key)
    | rewrite IHr; destruct (tree_lookup r key)]; lia.
Qed.

Lemma bst_insert (t : node_ref K V) key newvalue :
  bst t -> bst (tree_insert t key newvalue).
Proof.
  induction t as [|nkey nvalue l IHl r IHr]; simpl.
  - intros _. repeat split; constructor.
  - intros (Fl & Fr & Bl & Br).
    destruct (eqb nkey key) eqn:E1; simpl; [auto|].
    destruct (ltb key nkey) eqn:E2; simpl; repeat split; auto.
    + apply Forall_forall. intros x Hx. apply inorder_insert_In in Hx.
      destruct Hx as [->|Hx]; [exact E2|].
      rewrite Forall_forall in Fl. auto.
    + apply Forall_forall. intros x Hx. apply inorder_insert_In in Hx.
      destruct Hx as [->|Hx].
      * apply ltb_connex; [rewrite eqb_sym|]; assumption.
      * rewrite Forall_forall in Fr. auto.
Qed.

Lemma StronglySorted_app_cons (l1 l2 : list K) x :
  StronglySorted key_less l1 -> StronglySorted key_less l2 ->
  Forall (fun y => key_less y x) l1 -> Forall (fun y => key_less x y) l2 ->
  StronglySorted key_less (l1 ++ x :: l2).
Proof.
  intros S1 S2 F1 F2.
  induction l1 as [|a l1 IH]; simpl.
  - constructor; assumption.
  - inversion S1 as [|? ? S1' Fa]; subst.
    inversion F1 as [|? ? Hax F1']; subst.
    constructor; [auto|].
    apply Forall_app. split; [assumption|].
    constructor; [assumption|].
    rewrite Forall_forall in *. intros y Hy.
    unfold key_less in *. eapply ltb_trans; eauto.
Qed.

Lemma bst_sorted (t : node_ref K V) :
  bst t -> StronglySorted key_less (inorder t).
Proof.
  induction t as [|nkey nvalue l IHl r IHr]; simpl.
  - constructor.
  - intros (Fl & Fr & Bl & Br). apply StronglySorted_app_cons; auto.
Qed.


Lemma bst_lookup_In (t : node_ref K V) key :
  bst t -> In key (inorder t) -> exists v, tree_lookup t key = Some v.
Proof.
  induction t as [|nkey nvalue l IHl r IHr]; simpl; [contradiction|].
  intros (Fl & Fr & Bl & Br) Hin. rewrite Forall_forall in Fl, Fr.
  apply in_app_or in Hin. destruct Hin as [Hin|[->|Hin]].
  - pose proof (Fl _ Hin) as L. unfold key_less in L.
    assert (E : eqb nkey key = false)
      by (apply eqb_neq; intros ->; rewrite ltb_irrefl in L; discriminate).
    rewrite E, L. auto.
  - rewrite eqb_refl. eauto.
  - pose proof (Fr _ Hin) as L. unfold key_less in L.
    assert (E : eqb nkey key = false)
      by (apply eqb_neq; intros ->; rewrite ltb_irrefl in L; discriminate).
    rewrite E, (ltb_asym _ _ L). auto.
Qed.

Lemma lookup_Some_In (t : node_ref K V) key v :
  tree_lookup t key = Some v -> In key (inorder t).
Proof.
  induction t as [|nkey nvalue l IHl r IHr]; simpl; [discriminate|].
  destruct (eqb nkey key) eqn:E.
  - intros _. apply eqb_eq in E. subst. apply in_or_app. right. left.
    reflexivity.
  - destruct (ltb key nkey); intros L; apply in_or_app;
      [left | right; right]; auto.
Qed.

(** *** Reachable states *)

Lemma reachable_invariant (self : BSTMap K V) :
  reachable self ->
  bst (_root self) /\ _num_entries self = List.length (inorder (_root self)).
Proof.
  induction 1 as [|self key value R [B C]].
  - simpl. auto.
  - rewrite __setitem___total. simpl. split; [apply bst_insert; exact B|].
    rewrite inorder_insert_length, C.
    destruct (tree_lookup (_root self) key); reflexivity.
Qed.

Lemma run_calls_cons key value calls (self : BSTMap K V) :
  run_calls ((key, value) :: calls) self =
  run_calls calls
    {| _root := tree_insert (_root self) key value;
       _num_entries := match tree_lookup (_root self) key with
                       | Some _ => _num_entries self
                       | None => S (_num_entries self)
                       end |}.
Proof. unfold run_calls. simpl. rewrite __setitem___total. reflexivity. Qed.

Lemma run_calls_lookup_other calls (self : BSTMap K V) key :
  ~ In key (map fst calls) ->
  tree_lookup (_root (run_calls calls self)) key = tree_lookup (_root self) key.
Proof.
  revert self. induction calls as [|[k v] calls IH]; intros self Hn.
  - reflexivity.
  - rewrite run_calls_cons. simpl in Hn.
    rewrite IH by tauto. simpl. rewrite lookup_insert.
    assert (E : eqb k key = false) by (apply eqb_neq; tauto).
    rewrite E. reflexivity.
Qed.

Lemma run_calls_In calls (self : BSTMap K V) x :
  In x (inorder (_root (run_calls calls self))) <->
  In x (map fst calls) \/ In x (inorder (_root self)).
Proof.
  revert self. induction calls as [|[k v] calls IH]; intros self.
  - simpl. tauto.
  - rewrite run_calls_cons, IH. simpl. rewrite inorder_insert_In.
    intuition.
Qed.

Lemma after_calls_last (before after : list (K * V)) key value :
  ~ In key (map fst after) ->
  tree_lookup (_root (after_calls (before ++ (key, value) :: after))) key =
  Some value.
Proof.
  intros Hn. unfold after_calls.
  rewrite run_calls_app, run_calls_cons, run_calls_lookup_other by exact Hn.
  simpl. rewrite lookup_insert, eqb_refl. reflexivity.
Qed.

Lemma after_calls_absent (calls : list (K * V)) key :
  ~ In key (map fst calls) ->
  tree_lookup (_root (after_calls calls)) key = None.
Proof.
  intros Hn. unfold after_calls. rewrite run_calls_lookup_other by exact Hn.
  reflexivity.
Qed.

(** *** Rendering *)

Lemma str_items_total (self : BSTMap K V) keys :
  Forall (fun k => exists v, tree_lookup (_root self) k = Some v) keys ->
  exists values,
    Forall2 (fun k v => __getitem__ k self = (self, Ok v)) keys values /\
    str_items keys self = (self, Ok (rendered_items keys values)).
Proof.
  induction 1 as [|k keys [v Hv] F (values & F2 & IH)].
  - exists []. split; [constructor | reflexivity].
  - assert (G : __getitem__ k self = (self, Ok v))
      by (rewrite __getitem___total, Hv; reflexivity).
    exists (v :: values). split; [constructor; assumption|].
    simpl. unfold bind. rewrite G, IH. reflexivity.
Qed.

End Ordered.

(** ** Integer keys are totally ordered *)

#[export] Instance int_total_order : TotalOrderKeys Z.
Proof.
  constructor; unfold eqb, ltb; simpl.
  - intros a b. destruct (Z.eqb a b); reflexivity.
  - intros a b. destruct (Z.ltb a b); reflexivity.
  - intros a b. destruct (Z.eqb a b) eqn:E.
    + apply Z.eqb_eq in E. tauto.
    + apply Z.eqb_neq in E. split; [discriminate | contradiction].
  - intros a. rewrite Z.ltb_irrefl. reflexivity.
  - intros a b c. destruct (Z.ltb a b) eqn:E1; [|discriminate].
    destruct (Z.ltb b c) eqn:E2; [|discriminate]. intros _ _.
    apply Z.ltb_lt in E1, E2.
    assert (E3 : Z.ltb a c = true) by (apply Z.ltb_lt; lia).
    rewrite E3. reflexivity.
  - intros a b. destruct (Z.eqb a b) eqn:E1; [discriminate|].
    destruct (Z.ltb a b) eqn:E2; [discriminate|]. intros _ _.
    apply Z.eqb_neq in E1. apply Z.ltb_ge in E2.
    assert (E3 : Z.ltb b a = true) by (apply Z.ltb_lt; lia).
    rewrite E3. reflexivity.
Qed.

(** ** The claims of the specification *)

Section Claims.

Context {K V : Type} `{PyKey K} `{PyValue V} {HO : TotalOrderKeys K}.

Lemma In_keys_dec (l : list K) (key : K) : In key l \/ ~ In key l.
Proof.
  induction l as [|a l IH]; simpl; [tauto|].
  destruct (eqb a key) eqn:E.
  - apply eqb_eq in E. tauto.
  - apply eqb_neq in E. tauto.
Qed.

Lemma last_call (calls : list (K * V)) (key : K) :
  In key (map fst calls) ->
  exists before value after,
    calls = before ++ (key, value) :: after /\ ~ In key (map fst after).
Proof.
  induction calls as [|[k v] calls IH]; simpl; [contradiction|].
  intros Hin. destruct (In_keys_dec (map fst calls) key) as [D|D].
  - destruct (IH D) as (before & value & after & -> & Hn).
    exists ((k, v) :: before), value, after. split; [reflexivity | exact Hn].
  - destruct Hin as [->|Hin]; [|contradiction].
    exists [], v, calls. split; [reflexivity | exact D].
Qed.

Lemma after_calls_present (calls : list (K * V)) (key : K) :
  In key (map fst calls) ->
  exists v, tree_lookup (_root (after_calls calls)) key = Some v.
Proof.
  intros Hin. apply last_call in Hin.
  destruct Hin as (before & value & after & -> & Hn).
  exists value. apply after_calls_last. exact Hn.
Qed.

Lemma init_loop_total (calls : list (K * V)) (self : BSTMap K V) :
  init_loop calls self = (run_calls calls self, Ok tt).
Proof.
  revert self. induction calls as [|[k v] calls IH]; intros self.
  - reflexivity.
  - simpl init_loop. unfold bind. rewrite __setitem___total.
    rewrite IH, run_calls_cons. reflexivity.
Qed.

(** C1: in every state reached from the empty map by [__setitem__] calls
    with totally ordered keys, the key iterator yields the keys of the map
    in strictly ascending order.  The keys it yields are the keys of the
    map: the keys the calls have set, which are the keys [__contains__]
    accepts and [__getitem__] finds, as many as [__len__] says.  Each of
    them is less than every key after it, and a second call on the state
    the first one leaves yields the same sequence. *)
Theorem iter_strictly_ascending (self : BSTMap K V) :
  reachable self ->
  exists keys,
    __iter__ self = (self, Ok keys) /\
    StronglySorted key_less keys /\
    snd (__iter__ (fst (__iter__ self))) = Ok keys /\
    (forall calls,
       self = after_calls calls ->
       forall key, In key keys <-> In key (map fst calls)) /\
    (forall key, In key keys <-> snd (__contains__ key self) = Ok true) /\
    (forall key, In key keys <-> exists v, snd (__getitem__ key self) = Ok v) /\
    snd (__len__ self) = Ok (List.length keys).
Proof.
  intros R. exists (inorder (_root self)).
  destruct (reachable_invariant self R) as [B C].
  rewrite !__iter___inorder. simpl.
  split; [reflexivity|]. split; [apply bst_sorted, B|].
  split; [reflexivity|]. split; [|split; [|split]].
  - intros calls -> key. unfold after_calls. rewrite run_calls_In. simpl.
    tauto.
  - intros key. rewrite __contains___total. simpl. split.
    + intros I. destruct (bst_lookup_In _ _ B I) as [v ->]. reflexivity.
    + destruct (tree_lookup (_root self) key) as [v|] eqn:L; [|discriminate].
      intros _. apply lookup_Some_In in L. exact L.
  - intros key. rewrite __getitem___total. simpl. split.
    + intros I. destruct (bst_lookup_In _ _ B I) as [v ->]. eauto.
    + destruct (tree_lookup (_root self) key) as [v|] eqn:L.
      * intros _. apply lookup_Some_In in L. exact L.
      * intros [v E]. discriminate.
  - rewrite C. reflexivity.
Qed.

(** C2: after any sequence of [__setitem__] calls on an empty map, every
    key of the sequence has a last call, and [__getitem__] returns the
    value of that call.  In particular, after setting a key to [v1] and
    then to [v2], [__getitem__] returns [v2] and [__len__] is what it was
    after the first of the two calls: one more than before them when the
    key was new, and the same when it was not. *)
Theorem getitem_last_inserted (calls : list (K * V)) (key : K) :
  (In key (map fst calls) ->
   exists before value after,
     calls = before ++ (key, value) :: after /\
     ~ In key (map fst after) /\
     __getitem__ key (after_calls calls) = (after_calls calls, Ok value)) /\
  (forall v1 v2,
     let self0 := after_calls calls in
     let self1 := after_calls (calls ++ [(key, v1)]) in
     let self2 := after_calls (calls ++ [(key, v1); (key, v2)]) in
     __getitem__ key self2 = (self2, Ok v2) /\
     snd (__len__ self2) = snd (__len__ self1) /\
     (~ In key (map fst calls) ->
      snd (__len__ self2) = Ok (S (_num_entries self0))) /\
     (In key (map fst calls) ->
      snd (__len__ self2) = snd (__len__ self0))).
Proof.
  split.
  - intros Hin. destruct (last_call _ _ Hin) as (before & value & after & E & Hn).
    exists before, value, after. repeat split; try assumption.
    rewrite __getitem___total. subst calls.
    rewrite after_calls_last by exact Hn. reflexivity.
  - intros v1 v2 self0 self1 self2.
    assert (E1 : self1 = fst (__setitem__ key v1 self0)).
    { unfold self1, after_calls. rewrite run_calls_app. reflexivity. }
    assert (E2 : self2 = fst (__setitem__ key v2 self1)).
    { unfold self2, self1, after_calls.
      change [(key, v1); (key, v2)] with ([(key, v1)] ++ [(key, v2)]).
      rewrite app_assoc, (run_calls_app (calls ++ [(key, v1)])). reflexivity. }
    rewrite __setitem___total in E1, E2. simpl in E1, E2.
    assert (L1 : tree_lookup (_root self1) key = Some v1).
    { rewrite E1. simpl. rewrite lookup_insert, eqb_refl. reflexivity. }
    rewrite L1 in E2.
    repeat split.
    + rewrite __getitem___total. rewrite E2 at 2. simpl.
      rewrite lookup_insert, eqb_refl. reflexivity.
    + rewrite E2. reflexivity.
    + intros Hn. rewrite E2, E1. simpl.
      fold self0. unfold self0 at 1. rewrite after_calls_absent by exact Hn.
      reflexivity.
    + intros Hin. rewrite E2, E1. simpl.
      destruct (after_calls_present _ _ Hin) as [v Hv].
      fold self0. unfold self0 at 1. rewrite Hv. reflexivity.
Qed.


(** C4: in the state after any sequence of [__setitem__] calls on an empty
    map, for a key that is not in the sequence [__getitem__] raises
    [KeyError], [__contains__] returns [False] and [get] returns the
    default it is given; and for any key no method but [__getitem__]
    raises, and [__getitem__] raises nothing but [KeyError]. *)
Theorem absent_key_lookups (calls : list (K * V)) (key : K) :
  let self := after_calls calls in
  (~ In key (map fst calls) ->
   __getitem__ key self = (self, Raise (KeyError (key_format key))) /\
   __contains__ key self = (self, Ok false) /\
   (forall d, get key (Some d) self = (self, Ok d))) /\
  ((exists v, snd (__getitem__ key self) = Ok v) \/
   snd (__getitem__ key self) = Raise (KeyError (key_format key))) /\
  (forall value, snd (__setitem__ key value self) = Ok tt) /\
  (forall d, exists v, snd (get key d self) = Ok v) /\
  (exists b, snd (__contains__ key self) = Ok b) /\
  (exists n, snd (__len__ self) = Ok n) /\
  (exists keys, snd (__iter__ self) = Ok keys) /\
  (exists s, snd (__str__ self) = Ok s).
Proof.
  intros self. repeat split.
  - rewrite __getitem___total. unfold self.
    rewrite after_calls_absent by assumption. reflexivity.
  - rewrite __contains___total. unfold self.
    rewrite after_calls_absent by assumption. reflexivity.
  - intros d. rewrite get_total. unfold self.
    rewrite after_calls_absent by assumption. reflexivity.
  - rewrite __getitem___total. simpl.
    destruct (tree_lookup (_root self) key); eauto.
  - intros value. rewrite __setitem___total. reflexivity.
  - intros d. rewrite get_total. simpl. eauto.
  - rewrite __contains___total. simpl. eauto.
  - simpl. eauto.
  - rewrite __iter___inorder. simpl. eauto.
  - destruct (reachable_invariant self (reachable_after_calls calls)) as [B _].
    destruct (str_items_total self (inorder (_root self))) as (values & _ & S).
    { apply Forall_forall. intros k Hk. apply bst_lookup_In; assumption. }
    unfold __str__, bind. rewrite __iter___inorder, S. simpl. eauto.
Qed.

(** C5: the constructor called on a sequence of pairs returns, and the map
    it builds is observably the map obtained from an empty map by one
    [__setitem__] call per pair, in order: same [__len__], same
    [__getitem__] on every key, same keys from the iterator.  On the empty
    sequence it builds the empty map. *)
Theorem init_equals_calls (calls : list (K * V)) :
  (exists self,
     __init__ calls = (self, Ok tt) /\
     snd (__len__ self) = snd (__len__ (after_calls calls)) /\
     (forall key,
        snd (__getitem__ key self) = snd (__getitem__ key (after_calls calls))) /\
     snd (__iter__ self) = snd (__iter__ (after_calls calls))) /\
  (__init__ (@nil (K * V)) = ({| _root := NoneRef; _num_entries := 0 |}, Ok tt) /\
   snd (__len__ (fst (__init__ (@nil (K * V))))) = Ok 0 /\
   snd (__iter__ (fst (__init__ (@nil (K * V))))) = Ok []).
Proof.
  split.
  - exists (after_calls calls). split; [|auto].
    unfold __init__. rewrite init_loop_total. reflexivity.
  - repeat split.
Qed.

(** C9: [get] called without a default returns [None] for a key that is
    not in the map, and raises nothing. *)
Theorem get_without_default (calls : list (K * V)) (key : K) :
  ~ In key (map fst calls) ->
  get key None (after_calls calls) = (after_calls calls, Ok PyNone).
Proof.
  intros Hn. rewrite get_total, after_calls_absent by exact Hn. reflexivity.
Qed.

End Claims.

Section FrameClaims.

Context {K V : Type} `{PyKey K} `{PyValue V}.

Lemma str_items_frame (keys : list K) (self : BSTMap K V) :
  fst (str_items keys self) = self.
Proof.
  induction keys as [|key keys IH]; simpl; [reflexivity|].
  unfold bind. pose proof (__getitem___frame key self) as F.
  destruct (__getitem__ key self) as [self' [value|e]]; simpl in F; subst self';
    [|reflexivity].
  destruct (str_items keys self) as [self' [items|e]]; simpl in IH; subst self';
    reflexivity.
Qed.

Lemma __str___frame (self : BSTMap K V) : fst (__str__ self) = self.
Proof.
  unfold __str__, bind. rewrite __iter___inorder.
  pose proof (str_items_frame (inorder (_root self)) self) as F.
  destruct (str_items (inorder (_root self)) self) as [self' [items|e]];
    simpl in F; subst self'; reflexivity.
Qed.

Lemma frame_atomic {A : Type} (self : BSTMap K V)
    (outcome : BSTMap K V * result A) :
  fst outcome = self -> atomic self (fun after _ => after = self) outcome.
Proof. destruct outcome as [after [a|e]]; simpl; auto. Qed.

(** As long as no call runs out of stack, every method is atomic,
    whatever the comparisons of the keys do.  A [__setitem__] call that
    raises, as it does when a key comparison raises, leaves the tree, its
    values and the counter exactly as they were; one that returns has
    either linked one new leaf holding the key and the value and
    incremented the counter, or overwritten the value of one node and left
    the counter.  The other methods leave the map as it was however they
    end. *)
Theorem methods_atomic (key : K) (newvalue : V) (self : BSTMap K V) :
  atomic self
    (fun after _ =>
       leaf_linked key newvalue (_root self) (_root after) /\
       _num_entries after = S (_num_entries self) \/
       value_overwritten newvalue (_root self) (_root after) /\
       _num_entries after = _num_entries self)
    (__setitem__ key newvalue self) /\
  atomic self (fun after _ => after = self) (__getitem__ key self) /\
  (forall d, atomic self (fun after _ => after = self) (get key d self)) /\
  atomic self (fun after _ => after = self) (__contains__ key self) /\
  atomic self (fun after _ => after = self) (__len__ self) /\
  atomic self (fun after _ => after = self) (__iter__ self) /\
  atomic self (fun after _ => after = self) (__str__ self).
Proof.
  split; [|split; [|split; [|split; [|split; [|split]]]];
            try intros d; apply frame_atomic].
  - destruct (__setitem__ key newvalue self) as [after [[]|e]] eqn:Hs; simpl.
    + unfold __setitem__ in Hs.
      destruct (_set_item (_root self) key newvalue (_num_entries self))
        as [[post n] [t'|e']] eqn:Hi; inversion Hs; subst; simpl.
      apply _set_item_ok in Hi. tauto.
    + apply __setitem___raise in Hs. tauto.
  - apply __getitem___frame.
  - apply get_frame.
  - apply __contains___frame.
  - reflexivity.
  - rewrite __iter___inorder. reflexivity.
  - apply __str___frame.
Qed.

(** C8: [__getitem__], [get], [__contains__], [__len__] and [__iter__]
    leave the map exactly as it was, tree, values and counter, in every
    state and for every key, whether they return or raise. *)
Theorem queries_leave_map_unchanged (key : K) (d : option V)
    (self : BSTMap K V) :
  fst (__getitem__ key self) = self /\
  fst (get key d self) = self /\
  fst (__contains__ key self) = self /\
  fst (__len__ self) = self /\
  fst (__iter__ self) = self.
Proof.
  repeat split.
  - apply __getitem___frame.
  - apply get_frame.
  - apply __contains___frame.
  - rewrite __iter___inorder. reflexivity.
Qed.

(** C10: [repr] of a map is the same string as [str] of it, and leaves
    the same state: the class binds both names to one function. *)
Theorem repr_is_str (self : BSTMap K V) : __repr__ self = __str__ self.
Proof. reflexivity. Qed.

End FrameClaims.

(** C6: in every reachable state with totally ordered keys, [__str__]
    returns the items [repr(key) + ': ' + repr(value)], one per key, joined
    by [", "] between braces, for the keys in the strictly ascending order
    of the iterator and the value [__getitem__] returns for each; the empty
    map renders as [{}]; and after setting 5 to 'A', 3 to 'B', 8 to 'C' and
    3 to 'D' the rendering is [{3: 'D', 5: 'A', 8: 'C'}]. *)
Theorem str_rendering :
  (forall (K V : Type) (HK : PyKey K) (HV : PyValue V),
     TotalOrderKeys K ->
     forall self : BSTMap K V,
       reachable self ->
       exists keys values,
         __iter__ self = (self, Ok keys) /\
         StronglySorted key_less keys /\
         Forall2 (fun k v => __getitem__ k self = (self, Ok v)) keys values /\
         __str__ self =
         (self,
          Ok ("{" ++ String.concat ", " (rendered_items keys values) ++ "}")%string)) /\
  (forall (K V : Type) (HK : PyKey K) (HV : PyValue V),
     __str__ (new_map (K := K) (V := V)) = (new_map, Ok "{}")) /\
  (let self := after_calls scenario_calls in
   __str__ self = (self, Ok "{3: 'D', 5: 'A', 8: 'C'}")).
Proof.
  split; [|split].
  - intros K V HK HV HO self R.
    destruct (reachable_invariant self R) as [B _].
    destruct (str_items_total self (inorder (_root self))) as (values & F & S).
    { apply Forall_forall. intros k Hk. apply bst_lookup_In; assumption. }
    exists (inorder (_root self)), values. repeat split.
    + apply __iter___inorder.
    + apply bst_sorted, B.
    + exact F.
    + unfold __str__, bind. rewrite __iter___inorder, S. reflexivity.
  - intros K V HK HV. reflexivity.
  - vm_compute. reflexivity.
Qed.

(** ** The claims on the scenario of the specification *)

Lemma iter_strictly_ascending_witness :
  reachable (after_calls scenario_calls) /\
  exists keys,
    __iter__ (after_calls scenario_calls) = (after_calls scenario_calls, Ok keys) /\
    StronglySorted key_less keys /\
    snd (__iter__ (fst (__iter__ (after_calls scenario_calls)))) = Ok keys /\
    (forall calls,
       after_calls scenario_calls = after_calls calls ->
       forall key, In key keys <-> In key (map fst calls)) /\
    (forall key,
       In key keys <->
       snd (__contains__ key (after_calls scenario_calls)) = Ok true) /\
    (forall key,
       In key keys <->
       exists v, snd (__getitem__ key (after_calls scenario_calls)) = Ok v) /\
    snd (__len__ (after_calls scenario_calls)) = Ok (List.length keys).
Proof.
  split.
  - apply reachable_after_calls.
  - apply (iter_strictly_ascending (after_calls scenario_calls)).
    apply reachable_after_calls.
Defined.

Lemma getitem_last_inserted_witness :
  In 3%Z (map fst scenario_calls) /\
  exists before value after,
    scenario_calls = before ++ (3%Z, value) :: after /\
    ~ In 3%Z (map fst after) /\
    __getitem__ 3%Z (after_calls scenario_calls) =
    (after_calls scenario_calls, Ok value).
Proof.
  split.
  - simpl. lia.
  - apply (proj1 (getitem_last_inserted scenario_calls 3%Z)). simpl. lia.
Defined.


Lemma absent_key_lookups_witness :
  ~ In 7%Z (map fst scenario_calls) /\
  __getitem__ 7%Z (after_calls scenario_calls) =
  (after_calls scenario_calls, Raise (KeyError (key_format 7%Z))) /\
  __contains__ 7%Z (after_calls scenario_calls) =
  (after_calls scenario_calls, Ok false) /\
  (forall d, get 7%Z (Some d) (after_calls scenario_calls) =
             (after_calls scenario_calls, Ok d)).
Proof.
  split.
  - simpl. lia.
  - apply (proj1 (absent_key_lookups scenario_calls 7%Z)). simpl. lia.
Defined.

Lemma init_equals_calls_witness :
  TotalOrderKeys Z /\
  exists self,
    __init__ scenario_calls = (self, Ok tt) /\
    snd (__len__ self) = snd (__len__ (after_calls scenario_calls)) /\
    (forall key,
       snd (__getitem__ key self) =
       snd (__getitem__ key (after_calls scenario_calls))) /\
    snd (__iter__ self) = snd (__iter__ (after_calls scenario_calls)).
Proof.
  split.
  - exact int_total_order.
  - exact (proj1 (init_equals_calls (HO := int_total_order) scenario_calls)).
Defined.

Lemma str_rendering_witness :
  reachable (after_calls scenario_calls) /\
  exists keys values,
    __iter__ (after_calls scenario_calls) = (after_calls scenario_calls, Ok keys) /\
    StronglySorted key_less keys /\
    Forall2
      (fun k v =>
         __getitem__ k (after_calls scenario_calls) =
         (after_calls scenario_calls, Ok v))
      keys values /\
    __str__ (after_calls scenario_calls) =
    (after_calls scenario_calls,
     Ok ("{" ++ String.concat ", " (rendered_items keys values) ++ "}")%string).
Proof.
  split.
  - apply reachable_after_calls.
  - apply (proj1 str_rendering Z pyobj PyKey_int PyValue_pyobj int_total_order).
    apply reachable_after_calls.
Defined.

Lemma get_without_default_witness :
  ~ In 7%Z (map fst scenario_calls) /\
  get 7%Z None (after_calls scenario_calls) =
  (after_calls scenario_calls, Ok NoneObj).
Proof.
  split.
  - simpl. lia.
  - refine (get_without_default scenario_calls 7%Z _). simpl. lia.
Defined.

(** ** Runs *)

(** The scenario of the specification. *)
Example scenario_run :
  let self := after_calls scenario_calls in
  snd (__len__ self) = Ok 3 /\
  snd (__getitem__ 3%Z self) = Ok (StrObj "D") /\
  snd (__iter__ self) = Ok [3%Z; 5%Z; 8%Z] /\
  snd (__str__ self) = Ok "{3: 'D', 5: 'A', 8: 'C'}".
Proof. vm_compute. repeat split. Qed.

(** The examples of the docstrings: the rendering has no trailing comma. *)
Example grades_run :
  snd (__str__ (fst (__init__ grades))) =
  Ok "{101156: 'A+', 111537: 'A+', 127118: 'B'}" /\
  snd (__repr__ (fst (__init__ (@nil (Z * pyobj))))) = Ok "{}".
Proof. vm_compute. split; reflexivity. Qed.

(** A comparison that raises: a [str] key is set in a map that holds an
    [int] key.  The exception of [<] comes out of [__setitem__], and the
    map is as it was. *)
Example setitem_comparison_raises :
  let self := after_calls [(IntObj 5, StrObj "A"); (IntObj 3, StrObj "B")] in
  __setitem__ (StrObj "a") (StrObj "C") self =
  (self,
   Raise (ComparisonError
            "'<' not supported between instances of 'str' and 'int'")).
Proof. vm_compute. reflexivity. Qed.

(** [repr] of strings chooses its quotes and escapes as Python does. *)
Example repr_str_run :
  repr_str "A+" = "'A+'" /\
  repr_str "it's" = String dquote ("it's" ++ String dquote "") /\
  repr_str (String (ascii_of_nat 10) "z") =
  String squote (String backslash ("nz" ++ String squote "")).
Proof. vm_compute. repeat split. Qed.

(** * Further properties of the methods *)

(** ** For any keys, also when comparisons raise *)

Section Descents.

Context {K V : Type} `{PyKey K} `{PyValue V}.

(** The descents of [_contains] and [_get] end as the one of [_get_item]
    does, except where that one reaches [None]. *)
Lemma _contains_follows_get_item (t : node_ref K V) key :
  snd (_contains t key) =
  match snd (_get_item t key) with
  | Ok _ => Ok true
  | Raise (KeyError _) => Ok false
  | Raise (ComparisonError msg) => Raise (ComparisonError msg)
  end.
Proof.
  induction t as [|nkey nvalue l IHl r IHr]; simpl; [reflexivity|].
  destruct (key_eq nkey key) as [msg|[|]]; try reflexivity.
  destruct (key_lt key nkey) as [msg|[|]]; try reflexivity.
  - destruct (_contains l key), (_get_item l key); simpl in *; exact IHl.
  - destruct (_contains r key), (_get_item r key); simpl in *; exact IHr.
Qed.

Lemma _get_follows_get_item d (t : node_ref K V) key :
  snd (_get d t key) =
  match snd (_get_item t key) with
  | Ok v => Ok v
  | Raise (KeyError _) => Ok d
  | Raise (ComparisonError msg) => Raise (ComparisonError msg)
  end.
Proof.
  induction t as [|nkey nvalue l IHl r IHr]; simpl; [reflexivity|].
  destruct (key_eq nkey key) as [msg|[|]]; try reflexivity.
  destruct (key_lt key nkey) as [msg|[|]]; try reflexivity.
  - destruct (_get d l key), (_get_item l key); simpl in *; exact IHl.
  - destruct (_get d r key), (_get_item r key); simpl in *; exact IHr.
Qed.

Lemma _get_item_KeyError (t : node_ref K V) key msg :
  snd (_get_item t key) = Raise (KeyError msg) -> msg = key_format key.
Proof.
  induction t as [|nkey nvalue l IHl r IHr]; simpl.
  - intros E. inversion E. reflexivity.
  - destruct (key_eq nkey key) as [m|[|]]; try discriminate.
    destruct (key_lt key nkey) as [m|[|]]; try discriminate.
    + destruct (_get_item l key); simpl in *; exact IHl.
    + destruct (_get_item r key); simpl in *; exact IHr.
Qed.

(** What [_set_item] does, from how [_get_item] ends on the same subtree
    and key. *)
Lemma _set_item_follows_get_item (t : node_ref K V) key newvalue n :
  match snd (_get_item t key) with
  | Ok _ =>
      exists t', _set_item t key newvalue n = (t', n, Ok t') /\
                 value_overwritten newvalue t t'
  | Raise (KeyError _) =>
      exists t', _set_item t key newvalue n =
                 (match t with NoneRef => NoneRef | _ => t' end, S n, Ok t') /\
                 leaf_linked key newvalue t t'
  | Raise (ComparisonError msg) =>
      _set_item t key newvalue n = (t, n, Raise (ComparisonError msg))
  end.
Proof.
  induction t as [|nkey nvalue l IHl r IHr]; simpl.
  - eexists. split; [reflexivity | constructor].
  - destruct (key_eq nkey key) as [msg|[|]]; simpl.
    + reflexivity.
    + eexists. split; [reflexivity | constructor].
    + destruct (key_lt key nkey) as [msg|[|]]; simpl; [reflexivity| |].
      * destruct (_get_item l key) as [l0 [v|[m|m]]]; simpl in *.
        -- destruct IHl as (l' & -> & O). eexists. split; [reflexivity|].
           constructor. exact O.
        -- destruct IHl as (l' & -> & L). exists (_Node nkey nvalue l' r).
           split; [reflexivity|]. constructor. exact L.
        -- rewrite IHl. reflexivity.
      * destruct (_get_item r key) as [r0 [v|[m|m]]]; simpl in *.
        -- destruct IHr as (r' & -> & O). eexists. split; [reflexivity|].
           constructor. exact O.
        -- destruct IHr as (r' & -> & L). exists (_Node nkey nvalue l r').
           split; [reflexivity|]. constructor. exact L.
        -- rewrite IHr. reflexivity.
Qed.

(** X1: the three lookups agree, whatever the comparisons do.  Where
    [__getitem__] returns a value, [__contains__] returns [True] and [get]
    returns that value; where it raises [KeyError], whose message is the
    formatted key, [__contains__] returns [False] and [get] returns its
    default, [None] when none was given; and where a comparison raises,
    all three let the same exception through. *)
Theorem lookups_agree (key : K) (self : BSTMap K V) :
  match snd (__getitem__ key self) with
  | Ok v =>
      snd (__contains__ key self) = Ok true /\
      forall d, snd (get key d self) = Ok v
  | Raise (KeyError msg) =>
      msg = key_format key /\
      snd (__contains__ key self) = Ok false /\
      (forall d, snd (get key (Some d) self) = Ok d) /\
      snd (get key None self) = Ok PyNone
  | Raise (ComparisonError msg) =>
      snd (__contains__ key self) = Raise (ComparisonError msg) /\
      forall d, snd (get key d self) = Raise (ComparisonError msg)
  end.
Proof.
  pose proof (_contains_follows_get_item (_root self) key) as C.
  pose proof (fun d => _get_follows_get_item d (_root self) key) as G.
  pose proof (_get_item_KeyError (_root self) key) as E.
  unfold __getitem__, __contains__, get.
  destruct (_contains (_root self) key) as [t1 c].
  destruct (_get_item (_root self) key) as [t2 [v|[msg|msg]]]; simpl in *.
  - split; [exact C|]. intros d. specialize (G match d with Some d0 => d0 | None => PyNone end).
    destruct (_get _ (_root self) key); exact G.
  - split; [apply E; reflexivity|]. split; [exact C|]. split.
    + intros d. specialize (G d). destruct (_get d (_root self) key); exact G.
    + specialize (G PyNone). destruct (_get PyNone (_root self) key); exact G.
  - split; [exact C|]. intros d. specialize (G match d with Some d0 => d0 | None => PyNone end).
    destruct (_get _ (_root self) key); exact G.
Qed.

(** X2: what [__setitem__] does is decided by how [__getitem__] ends on
    the same key, whatever the comparisons do.  Where [__getitem__]
    returns, [__setitem__] overwrites one value and leaves the counter;
    where it raises [KeyError], [__setitem__] links one new leaf and adds
    one to the counter; where a comparison raises, [__setitem__] raises the
    same exception and leaves the map as it was. *)
Theorem setitem_follows_getitem (key : K) (newvalue : V) (self : BSTMap K V) :
  match snd (__getitem__ key self) with
  | Ok _ =>
      exists after,
        __setitem__ key newvalue self = (after, Ok tt) /\
        value_overwritten newvalue (_root self) (_root after) /\
        _num_entries after = _num_entries self
  | Raise (KeyError _) =>
      exists after,
        __setitem__ key newvalue self = (after, Ok tt) /\
        leaf_linked key newvalue (_root self) (_root after) /\
        _num_entries after = S (_num_entries self)
  | Raise (ComparisonError msg) =>
      __setitem__ key newvalue self = (self, Raise (ComparisonError msg))
  end.
Proof.
  pose proof (_set_item_follows_get_item (_root self) key newvalue
                (_num_entries self)) as S.
  unfold __getitem__, __setitem__.
  destruct (_get_item (_root self) key) as [t0 [v|[msg|msg]]]; simpl in *.
  - destruct S as (t' & -> & O). eexists. split; [reflexivity|]. simpl. auto.
  - destruct S as (t' & -> & L). eexists. split; [reflexivity|]. simpl. auto.
  - rewrite S. rewrite self_eta. reflexivity.
Qed.

End Descents.

(** ** For totally ordered keys *)

Section Contents.

Context {K V : Type} `{PyKey K} `{PyValue V} {HO : TotalOrderKeys K}.

Lemma insert_insert (t : node_ref K V) key v1 v2 :
  tree_insert (tree_insert t key v1) key v2 = tree_insert t key v2.
Proof.
  induction t as [|nkey nvalue l IHl r IHr]; simpl.
  - rewrite eqb_refl. reflexivity.
  - destruct (eqb nkey key) eqn:E1; [simpl; rewrite E1; reflexivity|].
    destruct (ltb key nkey) eqn:E2; simpl; rewrite E1, E2;
      [rewrite IHl | rewrite IHr]; reflexivity.
Qed.

Lemma inorder_insert_present (t : node_ref K V) key newvalue v :
  tree_lookup t key = Some v ->
  inorder (tree_insert t key newvalue) = inorder t.
Proof.
  induction t as [|nkey nvalue l IHl r IHr]; simpl; [discriminate|].
  destruct (eqb nkey key); [reflexivity|].
  destruct (ltb key nkey); simpl; intros L;
    [rewrite IHl | rewrite IHr]; auto.
Qed.

Lemma inorder_insert_absent (t : node_ref K V) key newvalue :
  tree_lookup t key = None ->
  exists l1 l2,
    inorder t = l1 ++ l2 /\
    inorder (tree_insert t key newvalue) = l1 ++ key :: l2.
Proof.
  induction t as [|nkey nvalue l IHl r IHr]; simpl.
  - intros _. exists [], []. split; reflexivity.
  - destruct (eqb nkey key); [discriminate|].
    destruct (ltb key nkey); simpl; intros L.
    + destruct (IHl L) as (l1 & l2 & -> & ->).
      exists l1, (l2 ++ nkey :: inorder r).
      rewrite <- !app_assoc. split; reflexivity.
    + destruct (IHr L) as (l1 & l2 & -> & ->).
      exists (inorder l ++ nkey :: l1), l2.
      rewrite <- !app_assoc. split; reflexivity.
Qed.

Lemma sorted_split (l1 l2 : list K) x :
  StronglySorted key_less (l1 ++ x :: l2) ->
  Forall (fun y => key_less y x) l1 /\ Forall (key_less x) l2.
Proof.
  induction l1 as [|a l1 IH]; simpl; intros S;
    inversion S as [|? ? S' F]; subst.
  - split; [constructor | assumption].
  - destruct (IH S') as [F1 F2]. split; [|assumption].
    constructor; [|assumption].
    rewrite Forall_forall in F. apply F. apply in_or_app. right. left.
    reflexivity.
Qed.

Lemma sorted_same_keys (l1 l2 : list K) :
  StronglySorted key_less l1 -> StronglySorted key_less l2 ->
  (forall x, In x l1 <-> In x l2) -> l1 = l2.
Proof.
  intros S1. revert l2.
  induction S1 as [|a l1 S1 IH F1]; intros l2 S2 E.
  - destruct l2 as [|b l2]; [reflexivity|].
    destruct (proj2 (E b) (or_introl eq_refl)).
  - destruct S2 as [|b l2 S2 F2].
    + destruct (proj1 (E a) (or_introl eq_refl)).
    + rewrite Forall_forall in F1, F2. unfold key_less in F1, F2.
      assert (a = b) as ->.
      { destruct (proj1 (E a) (or_introl eq_refl)) as [Eb|Ia]; [auto|].
        destruct (proj2 (E b) (or_introl eq_refl)) as [Ea|Ib]; [auto|].
        pose proof (F2 _ Ia) as L1. pose proof (ltb_asym _ _ (F1 _ Ib)) as L2.
        congruence. }
      f_equal. apply IH; [assumption|].
      intros x. split; intros I.
      * destruct (proj1 (E x) (or_intror I)) as [->|I']; [|assumption].
        pose proof (F1 _ I) as L. rewrite ltb_irrefl in L. discriminate.
      * destruct (proj2 (E x) (or_intror I)) as [->|I']; [|assumption].
        pose proof (F2 _ I) as L. rewrite ltb_irrefl in L. discriminate.
Qed.

Lemma height_le_nodes (t : node_ref K V) :
  height t <= List.length (inorder t).
Proof.
  induction t as [|nkey nvalue l IHl r IHr]; simpl; [lia|].
  rewrite List.length_app. simpl. lia.
Qed.

Lemma right_chain_insert (done : list (K * V)) key value :
  Forall (fun call => key_less (fst call) key) done ->
  tree_insert (right_chain done) key value = right_chain (done ++ [(key, value)]).
Proof.
  induction 1 as [|[k v] done L F IH]; simpl; [reflexivity|].
  unfold key_less in L. simpl in L.
  assert (E : eqb k key = false) by (apply eqb_neq, ltb_neq, L).
  rewrite E, (ltb_asym _ _ L), IH. reflexivity.
Qed.

Lemma right_chain_height (pairs : list (K * V)) :
  height (right_chain pairs) = List.length pairs.
Proof.
  induction pairs as [|[k v] pairs IH]; simpl; [reflexivity|].
  rewrite IH. reflexivity.
Qed.

Lemma run_calls_ascending (calls done : list (K * V)) (self : BSTMap K V) :
  _root self = right_chain done ->
  StronglySorted key_less (map fst (done ++ calls)) ->
  _root (run_calls calls self) = right_chain (done ++ calls).
Proof.
  revert done self.
  induction calls as [|[k v] calls IH]; intros done self R S.
  - rewrite app_nil_r. exact R.
  - rewrite run_calls_cons.
    change ((k, v) :: calls) with ([(k, v)] ++ calls) in *.
    rewrite app_assoc in *. apply IH; [|exact S].
    simpl. rewrite R. apply right_chain_insert.
    rewrite map_app, map_app in S. simpl in S. rewrite <- app_assoc in S.
    apply sorted_split in S. destruct S as [F _].
    rewrite Forall_forall in *. intros call I. apply F.
    apply in_map. exact I.
Qed.

Lemma lookup_unique_call (calls : list (K * V)) key value :
  NoDup (map fst calls) -> In (key, value) calls ->
  tree_lookup (_root (after_calls calls)) key = Some value.
Proof.
  intros N I. apply in_split in I. destruct I as (before & after & ->).
  apply after_calls_last.
  rewrite map_app in N. simpl in N. apply NoDup_remove_2 in N.
  intros I. apply N. apply in_or_app. right. exact I.
Qed.

(** X4: the last write wins, on the whole state.  Setting a key twice
    leaves the map in the state that setting it once to the second value
    does; so setting the same pair again changes nothing. *)
Theorem setitem_twice (key : K) (v1 v2 : V) (self : BSTMap K V) :
  fst (__setitem__ key v2 (fst (__setitem__ key v1 self))) =
  fst (__setitem__ key v2 self) /\
  fst (__setitem__ key v1 (fst (__setitem__ key v1 self))) =
  fst (__setitem__ key v1 self).
Proof.
  assert (G : forall a b,
             fst (__setitem__ key b (fst (__setitem__ key a self))) =
             fst (__setitem__ key b self)).
  { intros a b. rewrite !__setitem___total. simpl.
    rewrite insert_insert, lookup_insert, eqb_refl. reflexivity. }
  split; apply G.
Qed.

(** X5: what a [__setitem__] call does to the key sequence of the
    iterator, in a reachable state.  When the key is in the map the
    sequence stays as it is.  When it is not, the new sequence is the old
    one with the key put in at one place, after the keys less than it and
    before the keys greater than it. *)
Theorem iter_after_setitem (key : K) (newvalue : V) (self : BSTMap K V) :
  reachable self ->
  let after := fst (__setitem__ key newvalue self) in
  (snd (__contains__ key self) = Ok true ->
   snd (__iter__ after) = snd (__iter__ self)) /\
  (snd (__contains__ key self) = Ok false ->
   exists l1 l2,
     snd (__iter__ self) = Ok (l1 ++ l2) /\
     snd (__iter__ after) = Ok (l1 ++ key :: l2) /\
     Forall (fun k => key_less k key) l1 /\
     Forall (fun k => key_less key k) l2).
Proof.
  intros R after. unfold after.
  rewrite __contains___total, __setitem___total, !__iter___inorder. simpl.
  destruct (tree_lookup (_root self) key) as [v|] eqn:L; split;
    try discriminate; intros _.
  - rewrite (inorder_insert_present _ _ _ _ L). reflexivity.
  - destruct (inorder_insert_absent _ _ newvalue L) as (l1 & l2 & E1 & E2).
    exists l1, l2. rewrite E1, E2. split; [reflexivity|]. split; [reflexivity|].
    apply sorted_split. rewrite <- E2. apply bst_sorted, bst_insert.
    apply reachable_invariant. exact R.
Qed.

(** X6: after [self[key] = value], in any state, [__getitem__] on the key
    returns the value and [__contains__] returns [True]; on every other
    key both end as they did before the call. *)
Theorem lookup_after_setitem (key : K) (newvalue : V) (self : BSTMap K V) :
  let after := fst (__setitem__ key newvalue self) in
  snd (__getitem__ key after) = Ok newvalue /\
  snd (__contains__ key after) = Ok true /\
  (forall key',
     key' <> key ->
     snd (__getitem__ key' after) = snd (__getitem__ key' self) /\
     snd (__contains__ key' after) = snd (__contains__ key' self)).
Proof.
  intros after. unfold after.
  rewrite !__getitem___total, !__contains___total, __setitem___total. simpl.
  rewrite lookup_insert, eqb_refl. split; [reflexivity|]. split; [reflexivity|].
  intros key' N. rewrite !__getitem___total, !__contains___total. simpl.
  rewrite lookup_insert.
  assert (E : eqb key key' = false) by (apply eqb_neq; congruence).
  rewrite E. split; reflexivity.
Qed.

(** X7: the search tree invariant.  In every reachable state each node's
    key is greater than every key of its left subtree and less than every
    key of its right subtree; and from any state where that holds,
    [__setitem__] leads to a state where it holds. *)
Theorem setitem_keeps_bst (key : K) (newvalue : V) (self : BSTMap K V) :
  (reachable self -> bst (_root self)) /\
  (bst (_root self) -> bst (_root (fst (__setitem__ key newvalue self)))).
Proof.
  split.
  - intros R. apply reachable_invariant. exact R.
  - intros B. rewrite __setitem___total. simpl. apply bst_insert. exact B.
Qed.

(** X8: in a reachable state the membership test agrees with the
    iterator: [__contains__] returns [True] on the keys the iterator
    yields and [False] on all others. *)
Theorem contains_agrees_with_iter (key : K) (self : BSTMap K V) :
  reachable self ->
  exists keys,
    snd (__iter__ self) = Ok keys /\
    (In key keys -> snd (__contains__ key self) = Ok true) /\
    (~ In key keys -> snd (__contains__ key self) = Ok false).
Proof.
  intros R. exists (inorder (_root self)).
  rewrite __iter___inorder, __contains___total. simpl.
  split; [reflexivity|]. split.
  - intros I. destruct (bst_lookup_In (_root self) key) as [v ->];
      [apply reachable_invariant; exact R | exact I | reflexivity].
  - intros N. destruct (tree_lookup (_root self) key) as [v|] eqn:L;
      [|reflexivity].
    apply lookup_Some_In in L. contradiction.
Qed.

(** X9: the tree is not balanced.  Its height never exceeds the number of
    entries, and calls whose keys come in strictly ascending order reach
    that bound: they build the chain in which no node has a left child, as
    high as there are pairs. *)
Theorem ascending_calls_build_chain (calls : list (K * V)) :
  height (_root (after_calls calls)) <= _num_entries (after_calls calls) /\
  (StronglySorted key_less (map fst calls) ->
   _root (after_calls calls) = right_chain calls /\
   height (_root (after_calls calls)) = List.length calls /\
   _num_entries (after_calls calls) = List.length calls).
Proof.
  destruct (reachable_invariant _ (reachable_after_calls calls)) as [B C].
  split.
  - rewrite C. apply height_le_nodes.
  - intros S.
    assert (R : _root (after_calls calls) = right_chain calls)
      by (apply (run_calls_ascending calls [] new_map); [reflexivity | exact S]).
    split; [exact R|]. split.
    + rewrite R. apply right_chain_height.
    + rewrite C. rewrite <- (length_map fst calls).
      f_equal. apply sorted_same_keys.
      * apply bst_sorted, B.
      * exact S.
      * intros x. unfold after_calls. rewrite run_calls_In. simpl. tauto.
Qed.

(** X10: with pairwise different keys, what a map holds does not depend
    on the order of the calls: two orders of the same pairs give the same
    keys from the iterator, the same [__len__] and the same outcome of
    [__getitem__] on every key.  (The trees themselves can differ.) *)
Theorem contents_independent_of_order (calls1 calls2 : list (K * V)) :
  Permutation calls1 calls2 ->
  NoDup (map fst calls1) ->
  snd (__iter__ (after_calls calls1)) = snd (__iter__ (after_calls calls2)) /\
  snd (__len__ (after_calls calls1)) = snd (__len__ (after_calls calls2)) /\
  (forall key,
     snd (__getitem__ key (after_calls calls1)) =
     snd (__getitem__ key (after_calls calls2))).
Proof.
  intros P N1.
  assert (N2 : NoDup (map fst calls2))
    by (eapply Permutation_NoDup; [apply Permutation_map; exact P | exact N1]).
  destruct (reachable_invariant _ (reachable_after_calls calls1)) as [B1 C1].
  destruct (reachable_invariant _ (reachable_after_calls calls2)) as [B2 C2].
  assert (E : inorder (_root (after_calls calls1)) =
              inorder (_root (after_calls calls2))).
  { apply sorted_same_keys; try (apply bst_sorted; assumption).
    intros x. unfold after_calls. rewrite !run_calls_In. simpl.
    pose proof (Permutation_map fst P) as Pm.
    split; intros [I|[]]; left;
      [eapply Permutation_in; [exact Pm | exact I]
      | eapply Permutation_in; [apply Permutation_sym; exact Pm | exact I]]. }
  rewrite !__iter___inorder. simpl. rewrite C1, C2, E.
  split; [reflexivity|]. split; [reflexivity|].
  intros key. rewrite !__getitem___total. simpl.
  destruct (In_keys_dec (map fst calls1) key) as [I|I].
  - apply in_map_iff in I. destruct I as ([k v] & <- & I). simpl.
    rewrite (lookup_unique_call calls1 k v N1 I).
    rewrite (lookup_unique_call calls2 k v N2 (Permutation_in _ P I)).
    reflexivity.
  - rewrite (after_calls_absent calls1 key I).
    rewrite (after_calls_absent calls2 key); [reflexivity|].
    intros I2. apply I.
    eapply Permutation_in; [apply Permutation_sym, Permutation_map; exact P|].
    exact I2.
Qed.

End Contents.

(** ** The further properties on concrete maps *)

Lemma setitem_twice_witness :
  TotalOrderKeys Z /\
  fst (__setitem__ 3%Z (StrObj "E")
         (fst (__setitem__ 3%Z (StrObj "D") (after_calls scenario_calls)))) =
  fst (__setitem__ 3%Z (StrObj "E") (after_calls scenario_calls)) /\
  fst (__setitem__ 3%Z (StrObj "D")
         (fst (__setitem__ 3%Z (StrObj "D") (after_calls scenario_calls)))) =
  fst (__setitem__ 3%Z (StrObj "D") (after_calls scenario_calls)).
Proof.
  split.
  - exact int_total_order.
  - exact (setitem_twice (HO := int_total_order) 3%Z (StrObj "D") (StrObj "E")
             (after_calls scenario_calls)).
Defined.

Lemma iter_after_setitem_witness :
  reachable (after_calls scenario_calls) /\
  snd (__contains__ 7%Z (after_calls scenario_calls)) = Ok false /\
  exists l1 l2,
    snd (__iter__ (after_calls scenario_calls)) = Ok (l1 ++ l2) /\
    snd (__iter__ (fst (__setitem__ 7%Z (StrObj "E") (after_calls scenario_calls)))) =
    Ok (l1 ++ 7%Z :: l2) /\
    Forall (fun k => key_less k 7%Z) l1 /\
    Forall (fun k => key_less 7%Z k) l2.
Proof.
  split; [apply reachable_after_calls|]. split; [reflexivity|].
  apply (proj2 (iter_after_setitem 7%Z (StrObj "E") (after_calls scenario_calls)
                  (reachable_after_calls scenario_calls))).
  reflexivity.
Defined.

Lemma lookup_after_setitem_witness :
  3%Z <> 7%Z /\
  snd (__getitem__ 3%Z (fst (__setitem__ 7%Z (StrObj "E") (after_calls scenario_calls)))) =
  snd (__getitem__ 3%Z (after_calls scenario_calls)) /\
  snd (__contains__ 3%Z (fst (__setitem__ 7%Z (StrObj "E") (after_calls scenario_calls)))) =
  snd (__contains__ 3%Z (after_calls scenario_calls)).
Proof.
  split; [lia|].
  apply (proj2 (proj2 (lookup_after_setitem 7%Z (StrObj "E")
                         (after_calls scenario_calls)))).
  lia.
Defined.

Lemma setitem_keeps_bst_witness :
  reachable (after_calls scenario_calls) /\
  bst (_root (after_calls scenario_calls)) /\
  bst (_root (fst (__setitem__ 7%Z (StrObj "E") (after_calls scenario_calls)))).
Proof.
  split; [apply reachable_after_calls|].
  assert (B : bst (_root (after_calls scenario_calls))).
  { apply (proj1 (setitem_keeps_bst 7%Z (StrObj "E") (after_calls scenario_calls))).
    apply reachable_after_calls. }
  split; [exact B|].
  apply (proj2 (setitem_keeps_bst 7%Z (StrObj "E") (after_calls scenario_calls))).
  exact B.
Defined.

Lemma contains_agrees_with_iter_witness :
  reachable (after_calls scenario_calls) /\
  exists keys,
    snd (__iter__ (after_calls scenario_calls)) = Ok keys /\
    (In 8%Z keys -> snd (__contains__ 8%Z (after_calls scenario_calls)) = Ok true) /\
    (~ In 8%Z keys -> snd (__contains__ 8%Z (after_calls scenario_calls)) = Ok false).
Proof.
  split; [apply reachable_after_calls|].
  apply (contains_agrees_with_iter 8%Z (after_calls scenario_calls)).
  apply reachable_after_calls.
Defined.

Lemma ascending_calls_build_chain_witness :
  StronglySorted key_less (map fst ascending_grades) /\
  _root (after_calls ascending_grades) = right_chain ascending_grades /\
  height (_root (after_calls ascending_grades)) = List.length ascending_grades /\
  _num_entries (after_calls ascending_grades) = List.length ascending_grades.
Proof.
  assert (S : StronglySorted key_less (map fst ascending_grades)).
  { simpl. repeat (constructor; try reflexivity). }
  split; [exact S|].
  apply (proj2 (ascending_calls_build_chain ascending_grades)). exact S.
Defined.

Lemma contents_independent_of_order_witness :
  Permutation grades ascending_grades /\
  NoDup (map fst grades) /\
  snd (__iter__ (after_calls grades)) = snd (__iter__ (after_calls ascending_grades)) /\
  snd (__len__ (after_calls grades)) = snd (__len__ (after_calls ascending_grades)) /\
  (forall key,
     snd (__getitem__ key (after_calls grades)) =
     snd (__getitem__ key (after_calls ascending_grades))).
Proof.
  assert (P : Permutation grades ascending_grades) by apply perm_swap.
  assert (N : NoDup (map fst grades)).
  { simpl. repeat constructor; simpl; lia. }
  split; [exact P|]. split; [exact N|].
  apply (contents_independent_of_order grades ascending_grades P N).
Defined.

(** The two orders of the docstrings' pairs hold the same entries in
    trees of different shape. *)
Example same_contents_other_shape :
  _root (after_calls grades) <> _root (after_calls ascending_grades) /\
  height (_root (after_calls grades)) = 2 /\
  height (_root (after_calls ascending_grades)) = 3.
Proof. vm_compute. repeat split. discriminate. Qed.

(** * The insertion when the stack runs out *)

Section Stack.

Context {K V : Type} `{PyKey K} `{PyValue V}.







End Stack.

(** C7: an insertion that fails is not always without effect.
    [_set_item] adds one to [_num_entries] before it calls [BSTMap._Node],
    and when that call does not return, the insertion has failed and has
    changed the map.  The map
    holds the keys 1 to 996, set in ascending order, so that its tree is a
    chain of 996 nodes; key 997 is set with 998 frames left.  The call
    raises [RecursionError]; the tree is as it was, but the counter has
    gone from 996 to 997, so the map is not the map before the call, and
    [__len__] now returns 997 for a map whose iterator yields 996 keys. *)
Theorem setitem_changes_count_when_stack_runs_out :
  let self := after_calls (chain_calls 996) in
  let after := fst (BoundedStack.__setitem__ 998 997%Z (StrObj "x") self) in
  snd (BoundedStack.__setitem__ 998 997%Z (StrObj "x") self) =
  BoundedStack.RecursionError /\
  _root after = _root self /\
  _num_entries self = 996 /\
  _num_entries after = 997 /\
  after <> self /\
  snd (__len__ after) = Ok 997 /\
  snd (__iter__ after) = Ok (map fst (chain_calls 996)).
Proof.
  intros self after.
  assert (N : _num_entries after = 997) by (vm_compute; reflexivity).
  assert (M : _num_entries self = 996) by (vm_compute; reflexivity).
  split; [vm_compute; reflexivity|].
  split; [vm_compute; reflexivity|].
  split; [exact M|]. split; [exact N|].
  split.
  { intros E. apply (f_equal _num_entries) in E. rewrite N, M in E.
    discriminate. }
  split; [vm_compute; reflexivity|].
  vm_compute; reflexivity.
Qed.

(** ** The stack properties on concrete maps *)



(** One frame less, and the same call fails after the increment. *)
Example setitem_one_frame_short :
  BoundedStack.__setitem__ 4 7%Z (StrObj "E") (after_calls scenario_calls) =
  ({| _root := _root (after_calls scenario_calls); _num_entries := 4 |},
   BoundedStack.RecursionError) /\
  _num_entries (after_calls scenario_calls) = 3.
Proof. vm_compute. split; reflexivity. Qed.
